(** * sparsembed.losses.flops: the FLOPS regulariser and its weight scheduler

    A shallow embedding of [sparsembed/losses/flops.py].

    Numbers.  Python floats and tensor entries are modelled by exact
    rationals in canonical form ([Qc], Leibniz equality, computable).
    Rounding, overflow and infinities are outside the model.  Two
    behaviours of the numeric stack that do not depend on rounding are kept:
    - the true division of two Python integers raises [ZeroDivisionError]
      on a zero divisor;
    - the mean of an empty batch is [0/0], which the tensor library returns
      as a not-a-number entry and propagates through every later operation.
    Integers ([steps], [_step]) are unbounded, as in Python, hence [Z]. *)

From Stdlib Require Import ZArith QArith Qcanon Qcabs List Lia Bool.
From Stdlib Require Import Permutation Lqa.
Import ListNotations.

Local Open Scope Z_scope.

(** ** Exceptions *)

Inductive exn : Type :=
| ZeroDivisionError  (* Python: division of a number by zero *)
| RuntimeError.      (* torch: shape mismatch, empty list of tensors *)

Inductive result (A : Type) : Type :=
| Ok (a : A)
| Raise (e : exn).

Arguments Ok {A} a.
Arguments Raise {A} e.

Definition bind {A B : Type} (r : result A) (k : A -> result B) : result B :=
  match r with
  | Ok a => k a
  | Raise e => Raise e
  end.

Notation "x <- r ;; k" := (bind r (fun x => k))
  (at level 61, r at next level, right associativity).

(** ** Numbers *)

Definition Z2Qc (z : Z) : Qc := Q2Qc (inject_Z z).

(** Python's [a / b] on two integers: the exact quotient, or
    [ZeroDivisionError]. *)
Definition true_div (a b : Z) : result Qc :=
  if b =? 0 then Raise ZeroDivisionError
  else Ok (Z2Qc a / Z2Qc b)%Qc.

(** ** FlopsScheduler *)

Module FlopsScheduler.

Record t : Type := mk {
  _weight : Qc;   (* target weight *)
  weight  : Qc;   (* current weight *)
  steps   : Z;    (* total ramp steps *)
  _step   : Z     (* elapsed steps *)
}.

(** [__init__(self, weight, steps)] *)
Definition __init__ (weight0 : Qc) (steps0 : Z) : t :=
  {| _weight := weight0; weight := 0%Qc; steps := steps0; _step := 0 |}.

(** [step(self)] *)
Definition step (self : t) : result t :=
  if self.(_step) >=? self.(steps) then
    Ok self
  else
    let _step' := self.(_step) + 1 in
    ratio <- true_div _step' self.(steps) ;;
    Ok {| _weight := self.(_weight);
          weight  := (self.(_weight) * ratio ^ 2)%Qc;
          steps   := self.(steps);
          _step   := _step' |}.

(** [get(self)] *)
Definition get (self : t) : Qc := self.(weight).

(** [k] successive calls of [step], as a training loop makes them. *)
Fixpoint step_n (k : nat) (self : t) : result t :=
  match k with
  | O => Ok self
  | S k' => self' <- step_n k' self ;; step self'
  end.

End FlopsScheduler.

(** ** Tensors *)

(** A two-dimensional tensor of shape [(length rows, ncols)], row major.
    The column count is kept apart from the rows, so that a batch with no
    row still has a vocabulary dimension. *)
Record Tensor : Type := mkTensor {
  ncols : nat;
  rows  : list (list Qc)
}.

Definition nrows (x : Tensor) : nat := length (rows x).


(** An entry of a reduced tensor: a number, or not-a-number. *)
Inductive value : Type :=
| Num (q : Qc)
| NaN.

Definition vmap (f : Qc -> Qc) (v : value) : value :=
  match v with
  | Num q => Num (f q)
  | NaN => NaN
  end.

Definition vmap2 (f : Qc -> Qc -> Qc) (u v : value) : value :=
  match u, v with
  | Num p, Num q => Num (f p q)
  | _, _ => NaN
  end.

Definition Qcmax (x y : Qc) : Qc := if Qle_bool x y then y else x.
Definition Qcmin (x y : Qc) : Qc := if Qle_bool x y then x else y.

(** [torch.cat(tensors, dim=0)]: the tensors must agree on every dimension
    but the first. *)
Definition torch_cat (tensors : list Tensor) : result Tensor :=
  match tensors with
  | [] => Raise RuntimeError
  | x0 :: rest =>
      if forallb (fun x => Nat.eqb (ncols x) (ncols x0)) rest then
        Ok {| ncols := ncols x0; rows := concat (map rows tensors) |}
      else Raise RuntimeError
  end.

(** [torch.abs] on a matrix. *)
Definition torch_abs (x : Tensor) : Tensor :=
  {| ncols := ncols x; rows := map (map Qcabs) (rows x) |}.

(** Entrywise sum of two rows. *)
Definition row_add (u v : list Qc) : list Qc :=
  map (fun uv => (fst uv + snd uv)%Qc) (combine u v).

(** The sum of the rows: one total per column. *)
Definition sum_dim0 (x : Tensor) : list Qc :=
  fold_right row_add (repeat 0%Qc (ncols x)) (rows x).

(** A column total divided by the number of rows; [0/0] is not a number. *)
Definition div_count (s : Qc) (count : nat) : value :=
  match count with
  | O => NaN
  | S _ => Num (s / Z2Qc (Z.of_nat count))%Qc
  end.

(** [torch.mean(x, dim=0)] *)
Definition torch_mean_dim0 (x : Tensor) : list value :=
  map (fun s => div_count s (nrows x)) (sum_dim0 x).

(** [v ** 2] on a vector. *)
Definition pow2 (v : list value) : list value :=
  map (vmap (fun q => q ^ 2)%Qc) v.

(** [torch.sum(v, dim=0)] on a vector. *)
Definition torch_sum (v : list value) : value :=
  fold_right (vmap2 Qcplus) (Num 0%Qc) v.

(** [torch.abs] on a scalar. *)
Definition torch_abs0 (v : value) : value := vmap Qcabs v.

(** [torch.clip(v, min=lo, max=hi)] is [min(max(v, lo), hi)]; when
    [lo > hi] the result is [hi]. *)
Definition torch_clip (v : value) (lo hi : Qc) : value :=
  vmap (fun q => Qcmin (Qcmax q lo) hi) v.

(** ** Flops *)

Module Flops.

(** [__call__(self, anchor_activations, positive_activations,
    negative_activations, threshold, max_loss)] *)
Definition __call__
    (anchor_activations positive_activations negative_activations : Tensor)
    (threshold max_loss : Qc) : result value :=
  activations <-
    torch_cat [anchor_activations; positive_activations;
               negative_activations] ;;
  let loss :=
    torch_abs0
      (vmap2 Qcminus (Num threshold)
         (torch_sum (pow2 (torch_mean_dim0 (torch_abs activations))))) in
  Ok (torch_clip loss 0%Qc max_loss).

End Flops.

(** ** The loss as the specification words it

    Entry by entry: for every vocabulary dimension [j], the mean over all
    rows of the three batches of the absolute entry; squared; summed over
    [j]; subtracted from the threshold; in absolute value; clamped. *)

Section SpecWording.

Variables anchor positive negative : Tensor.
Variables threshold max_loss : Qc.

Definition spec_batch : list (list Qc) :=
  rows anchor ++ rows positive ++ rows negative.







End SpecWording.

(** ** Observations used by the statements *)




(** [y] is [x] with the sign of some entries flipped. *)
Definition sign_flipped (x y : Tensor) : Prop :=
  ncols y = ncols x /\
  Forall2 (Forall2 (fun p q => q = p \/ q = (- p)%Qc)) (rows x) (rows y).

(** The weight after [k] calls on the ramp, in closed form. *)
Definition ramp (w : Qc) (s : Z) (k : nat) : Qc :=
  match k with
  | O => 0%Qc
  | S _ => (w * (Z2Qc (Z.of_nat k) / Z2Qc s) ^ 2)%Qc
  end.

(** The weights a training loop reads through [get] never decrease from one
    call of [step] to the next, and no longer change once [steps] calls have
    been made. *)
Definition ramp_nondecreasing_then_constant (w : Qc) (s : Z) : Prop :=
  forall k : nat,
  exists self self',
    FlopsScheduler.step_n k (FlopsScheduler.__init__ w s) = Ok self /\
    FlopsScheduler.step self = Ok self' /\
    (FlopsScheduler.get self <= FlopsScheduler.get self')%Qc /\
    (s <= Z.of_nat k -> FlopsScheduler.get self' = FlopsScheduler.get self).

(** ** Sample batches

    Vocabulary of two dimensions; two, one and three rows. *)

Definition sample_anchor : Tensor :=
  mkTensor 2 [[Z2Qc 1; (- Z2Qc 2)%Qc]; [Z2Qc 0; Z2Qc 3]].

Definition sample_positive : Tensor :=
  mkTensor 2 [[Z2Qc 2; Z2Qc 0]].

Definition sample_negative : Tensor :=
  mkTensor 2 [[(- Z2Qc 1)%Qc; Z2Qc 1]; [Z2Qc 4; Z2Qc 0]; [Z2Qc 0; Z2Qc 0]].

(** [sample_anchor] with the sign of its second column flipped. *)
Definition sample_anchor_flipped : Tensor :=
  mkTensor 2 [[Z2Qc 1; (- - Z2Qc 2)%Qc]; [Z2Qc 0; (- Z2Qc 3)%Qc]].


(** A batch of no row over the same vocabulary. *)
Definition sample_empty : Tensor := mkTensor 2 [].

(** * Concrete runs *)

Example scheduler_fresh_weight :
  FlopsScheduler.get (FlopsScheduler.__init__ (Z2Qc 8) 4) = Z2Qc 0.
Proof. reflexivity. Qed.

Example scheduler_negative_target :
  FlopsScheduler.step (FlopsScheduler.__init__ (Z2Qc (-1)) 2)
  = Ok (FlopsScheduler.mk (Z2Qc (-1)) (Q2Qc (-1 # 4)) 2 1).
Proof. reflexivity. Qed.

Example scheduler_division_by_zero :
  FlopsScheduler.step (FlopsScheduler.mk (Z2Qc 1) (Z2Qc 0) 0 (-1))
  = Raise ZeroDivisionError.
Proof. reflexivity. Qed.

Example flops_sample_loss :
  Flops.__call__ sample_anchor sample_positive sample_negative
                 (Z2Qc 3) (Z2Qc 1)
  = Ok (Num (Q2Qc (2 # 9))).
Proof.
  vm_compute. do 2 f_equal. apply Qc_is_canon. reflexivity.
Qed.

Example flops_sample_loss_clamped :
  Flops.__call__ sample_anchor sample_positive sample_negative
                 (Z2Qc 30) (Z2Qc 1)
  = Ok (Num (Z2Qc 1)).
Proof. vm_compute. reflexivity. Qed.

Example flops_shape_mismatch :
  Flops.__call__ sample_anchor (mkTensor 3 []) sample_negative
                 (Z2Qc 30) (Z2Qc 1)
  = Raise RuntimeError.
Proof. reflexivity. Qed.

Example scheduler_two_of_four :
  FlopsScheduler.step_n 2 (FlopsScheduler.__init__ (Z2Qc 8) 4)
  = Ok (FlopsScheduler.mk (Z2Qc 8) (Z2Qc 2) 4 2).
Proof.
  cbn. f_equal. f_equal. apply Qc_is_canon. reflexivity.
Qed.

(** * Arithmetic of canonical rationals *)

Lemma Z2Qc_le (a b : Z) : a <= b -> (Z2Qc a <= Z2Qc b)%Qc.
Proof.
  intros H. unfold Qcle, Z2Qc. cbn [this Q2Qc]. rewrite !Qred_correct.
  now rewrite <- Zle_Qle.
Qed.

Lemma Z2Qc_nonzero (a : Z) : a <> 0 -> Z2Qc a <> 0%Qc.
Proof.
  intros H E. apply H. unfold Z2Qc in E.
  apply Q2Qc_eq_iff in E. now apply (inject_Z_injective a 0).
Qed.

Lemma Qcinv_nonneg (x : Qc) : (0 <= x -> 0 <= / x)%Qc.
Proof.
  unfold Qcle, Qcinv. cbn [this Q2Qc]. rewrite !Qred_correct.
  apply Qinv_le_0_compat.
Qed.

Lemma Qcmult_nonneg (x y : Qc) : (0 <= x -> 0 <= y -> 0 <= x * y)%Qc.
Proof.
  intros Hx Hy. rewrite <- (Qcmult_0_l y).
  now apply Qcmult_le_compat_r.
Qed.

Lemma Qcmult_le_compat_l (x y z : Qc) : (x <= y -> 0 <= z -> z * x <= z * y)%Qc.
Proof.
  intros. rewrite (Qcmult_comm z x), (Qcmult_comm z y).
  now apply Qcmult_le_compat_r.
Qed.

Lemma Qcsquare_le (a b : Qc) : (0 <= a -> a <= b -> a ^ 2 <= b ^ 2)%Qc.
Proof.
  intros Ha Hab. simpl. rewrite !Qcmult_1_r.
  apply Qcle_trans with (a * b)%Qc.
  - now apply Qcmult_le_compat_l.
  - apply Qcmult_le_compat_r; [assumption|].
    now apply Qcle_trans with a.
Qed.

Lemma Qcdiv_nonneg (a b : Z) : 0 <= a -> 0 <= b -> (0 <= Z2Qc a / Z2Qc b)%Qc.
Proof.
  intros Ha Hb. apply Qcmult_nonneg.
  - now apply (Z2Qc_le 0 a).
  - apply Qcinv_nonneg. now apply (Z2Qc_le 0 b).
Qed.

Lemma Qcdiv_le (a b c : Z) :
  a <= b -> 0 <= c -> (Z2Qc a / Z2Qc c <= Z2Qc b / Z2Qc c)%Qc.
Proof.
  intros Hab Hc. apply Qcmult_le_compat_r.
  - now apply Z2Qc_le.
  - apply Qcinv_nonneg. now apply (Z2Qc_le 0 c).
Qed.

(** * The scheduler *)

Section Scheduler.

Import FlopsScheduler.

Lemma step_frozen (self : t) : steps self <= _step self -> step self = Ok self.
Proof.
  intros H. unfold step.
  destruct (Z.geb_spec (_step self) (steps self)); [reflexivity | lia].
Qed.

Lemma step_ramping (self : t) :
  _step self < steps self -> steps self <> 0 ->
  step self =
  Ok {| _weight := _weight self;
        weight := (_weight self
                   * (Z2Qc (_step self + 1) / Z2Qc (steps self)) ^ 2)%Qc;
        steps := steps self;
        _step := _step self + 1 |}.
Proof.
  intros Hlt Hnz. unfold step, true_div.
  destruct (Z.geb_spec (_step self) (steps self)); [lia|].
  destruct (Z.eqb_spec (steps self) 0); [contradiction|].
  reflexivity.
Qed.

Lemma step_n_frozen (k : nat) (self : t) :
  steps self <= _step self -> step_n k self = Ok self.
Proof.
  intros H. induction k as [|k IH]; [reflexivity|].
  simpl. rewrite IH. simpl. now apply step_frozen.
Qed.

Lemma step_n_add (j k : nat) (self : t) :
  step_n (j + k) self = (self' <- step_n j self ;; step_n k self').
Proof.
  induction k as [|k IH].
  - rewrite Nat.add_0_r. simpl. now destruct (step_n j self).
  - rewrite Nat.add_succ_r. simpl. rewrite IH.
    now destruct (step_n j self).
Qed.

Lemma step_n_ramp (w : Qc) (s : Z) (k : nat) :
  Z.of_nat k <= s ->
  step_n k (__init__ w s) = Ok (mk w (ramp w s k) s (Z.of_nat k)).
Proof.
  induction k as [|k IH]; intros Hk; [reflexivity|].
  simpl step_n. rewrite IH by lia. simpl bind.
  rewrite step_ramping by (simpl; lia). simpl.
  replace (Z.of_nat k + 1) with (Z.pos (Pos.of_succ_nat k)) by lia.
  reflexivity.
Qed.

Lemma step_n_past (w : Qc) (s : Z) (k : nat) :
  0 <= s <= Z.of_nat k ->
  step_n k (__init__ w s)
  = Ok (mk w (ramp w s (Z.to_nat s)) s s).
Proof.
  intros Hk.
  replace k with (Z.to_nat s + (k - Z.to_nat s))%nat by lia.
  rewrite step_n_add, step_n_ramp by lia. simpl bind.
  rewrite Z2Nat.id by lia.
  apply step_n_frozen. simpl. lia.
Qed.

Lemma ramp_le (w : Qc) (s : Z) (k : nat) :
  (0 <= w)%Qc -> Z.of_nat k < s -> (ramp w s k <= ramp w s (S k))%Qc.
Proof.
  intros Hw Hk. destruct k as [|k].
  - cbv [ramp]. apply Qcmult_nonneg; [assumption|].
    apply Qcpower_pos. apply Qcdiv_nonneg; lia.
  - cbv [ramp]. apply Qcmult_le_compat_l; [|assumption].
    apply Qcsquare_le.
    + apply Qcdiv_nonneg; lia.
    + apply Qcdiv_le; lia.
Qed.



(** C4, as the code has it: when the target weight is not negative (and
    [steps >= 1]) the weights read through [get] never decrease from one
    call of [step] to the next, and stay constant once [steps] calls have
    been made. *)
Theorem scheduler_monotone_nonneg_weight (w : Qc) (s : Z) :
  (0 <= w)%Qc -> 1 <= s -> ramp_nondecreasing_then_constant w s.
Proof.
  intros Hw Hs k.
  destruct (Z_lt_le_dec (Z.of_nat k) s) as [Hlt | Hge].
  - exists (mk w (ramp w s k) s (Z.of_nat k)).
    exists (mk w (ramp w s (S k)) s (Z.of_nat (S k))).
    split; [apply step_n_ramp; lia|].
    split.
    + rewrite <- (step_n_ramp w s (S k)) by lia.
      simpl step_n. now rewrite step_n_ramp by lia.
    + split; [now apply ramp_le | lia].
  - exists (mk w (ramp w s (Z.to_nat s)) s s).
    exists (mk w (ramp w s (Z.to_nat s)) s s).
    split; [apply step_n_past; lia|].
    split; [apply step_frozen; simpl; lia|].
    split; [apply Qcle_refl | reflexivity].
Qed.

Lemma scheduler_monotone_nonneg_weight_witness :
  ramp_nondecreasing_then_constant (Z2Qc 3) 2.
Proof.
  apply scheduler_monotone_nonneg_weight.
  - now vm_compute.
  - lia.
Defined.

(** C4, as stated, fails for a negative target weight: with weight [-1]
    and two ramp steps the first call of [step] takes the weight from
    [0] down to [-1/4]. *)
Lemma scheduler_monotone_counterexample :
  ~ ramp_nondecreasing_then_constant (Z2Qc (-1)) 2.
Proof.
  intros H. destruct (H 0%nat) as (self & self' & H0 & H1 & Hle & _).
  simpl in H0. injection H0 as <-.
  cbv [step __init__ _step steps Z.geb Z.compare] in H1.
  simpl in H1. injection H1 as <-.
  revert Hle. now vm_compute.
Qed.



(** C6: once the elapsed step count has reached [steps], a call of
    [step], and so any number of them, returns the scheduler exactly as
    it was: same weights, same counter. *)
Theorem scheduler_frozen_after_completion (self : t) (k : nat) :
  steps self <= _step self ->
  step self = Ok self /\ step_n k self = Ok self.
Proof.
  intros H. split; [now apply step_frozen | now apply step_n_frozen].
Qed.

Lemma scheduler_frozen_after_completion_witness :
  step (mk (Z2Qc 5) (Z2Qc 5) 3 3) = Ok (mk (Z2Qc 5) (Z2Qc 5) 3 3) /\
  step_n 4 (mk (Z2Qc 5) (Z2Qc 5) 3 3) = Ok (mk (Z2Qc 5) (Z2Qc 5) 3 3).
Proof.
  apply (scheduler_frozen_after_completion (mk (Z2Qc 5) (Z2Qc 5) 3 3) 4).
  simpl. lia.
Defined.

(** C10: with [steps <= 0] no call of [step] raises (the division is
    never reached), the scheduler never changes and [get] returns 0. *)
Theorem scheduler_zero_steps_inert (w : Qc) (s : Z) (k : nat) :
  s <= 0 ->
  step (__init__ w s) = Ok (__init__ w s) /\
  step_n k (__init__ w s) = Ok (__init__ w s) /\
  (forall self, step_n k (__init__ w s) = Ok self -> get self = 0%Qc).
Proof.
  intros Hs.
  assert (Hn : step_n k (__init__ w s) = Ok (__init__ w s))
    by (apply step_n_frozen; simpl; lia).
  split; [apply step_frozen; simpl; lia|]. split; [exact Hn|].
  intros self Hrun. rewrite Hn in Hrun. now injection Hrun as <-.
Qed.

Lemma scheduler_zero_steps_inert_witness :
  step_n 5 (__init__ (Z2Qc 3) 0) = Ok (__init__ (Z2Qc 3) 0).
Proof.
  apply (scheduler_zero_steps_inert (Z2Qc 3) 0 5). lia.
Defined.

End Scheduler.


(** * The loss *)

Section Loss.

(** ** Rows and their sums *)

Lemma row_add_swap (u v w : list Qc) :
  row_add u (row_add v w) = row_add v (row_add u w).
Proof.
  revert v w. induction u as [|a u IH]; intros [|b v] [|c w];
    try reflexivity.
  unfold row_add in *. simpl. f_equal; [ring | apply IH].
Qed.

Lemma fold_row_add_perm (z : list Qc) (R R' : list (list Qc)) :
  Permutation R R' -> fold_right row_add z R = fold_right row_add z R'.
Proof.
  induction 1 as [| r R R' _ IH | r r' R | R R' R'' _ IH1 _ IH2]; simpl.
  - reflexivity.
  - now rewrite IH.
  - apply row_add_swap.
  - now rewrite IH1.
Qed.

Lemma mean_abs_perm (x x' : Tensor) :
  ncols x = ncols x' -> Permutation (rows x) (rows x') ->
  torch_mean_dim0 (torch_abs x) = torch_mean_dim0 (torch_abs x').
Proof.
  intros Hc Hp. unfold torch_mean_dim0, sum_dim0, nrows, torch_abs. simpl.
  rewrite !length_map, (Permutation_length Hp), Hc.
  f_equal. apply fold_row_add_perm. now apply Permutation_map.
Qed.

(** ** Concatenation *)





(** ** Numbers and not-a-numbers *)



Lemma Qle_bool_false (x y : Qc) : Qle_bool x y = false -> (y <= x)%Qc.
Proof.
  intros E. apply Qclt_le_weak, Qcnot_le_lt. intros H.
  apply Qle_bool_iff in H. congruence.
Qed.

Lemma Qcmax_ub_r (x y : Qc) : (y <= Qcmax x y)%Qc.
Proof.
  unfold Qcmax. destruct (Qle_bool x y) eqn:E.
  - apply Qcle_refl.
  - now apply Qle_bool_false.
Qed.

Lemma Qcmin_lb_r (x y : Qc) : (Qcmin x y <= y)%Qc.
Proof.
  unfold Qcmin. destruct (Qle_bool x y) eqn:E.
  - now apply Qle_bool_iff.
  - apply Qcle_refl.
Qed.



(** ** Absolute values *)

Lemma call_same_abs (a p n a' p' n' : Tensor) (threshold max_loss : Qc) :
  ncols a' = ncols a -> ncols p' = ncols p -> ncols n' = ncols n ->
  map (map Qcabs) (rows a') = map (map Qcabs) (rows a) ->
  map (map Qcabs) (rows p') = map (map Qcabs) (rows p) ->
  map (map Qcabs) (rows n') = map (map Qcabs) (rows n) ->
  Flops.__call__ a' p' n' threshold max_loss
  = Flops.__call__ a p n threshold max_loss.
Proof.
  intros Ha Hp Hn Ra Rp Rn. unfold Flops.__call__, torch_cat.
  cbn [forallb]. rewrite Ha, Hp, Hn.
  destruct (Nat.eqb (ncols p) (ncols a) && (Nat.eqb (ncols n) (ncols a) && true));
    [|reflexivity].
  cbn [bind]. unfold torch_mean_dim0, sum_dim0, nrows, torch_abs.
  cbn [rows ncols concat map].
  now rewrite !map_app, Ra, Rp, Rn.
Qed.

Lemma sign_flipped_abs (x y : Tensor) :
  sign_flipped x y -> map (map Qcabs) (rows y) = map (map Qcabs) (rows x).
Proof.
  intros [_ H]. induction H as [|r r' R R' Hr _ IH]; [reflexivity|].
  simpl. f_equal; [|exact IH].
  induction Hr as [|c c' r r' [-> | ->] _ IHr]; simpl; f_equal;
    auto using Qcabs_opp.
Qed.

Lemma sign_flipped_torch_abs (x : Tensor) : sign_flipped x (torch_abs x).
Proof.
  split; [reflexivity|]. unfold torch_abs. simpl.
  induction (rows x) as [|r R IH]; constructor; [|exact IH].
  induction r as [|c r IHr]; constructor; [|exact IHr].
  apply (Qcabs_case c (fun q => q = c \/ q = (- c)%Qc)); auto.
Qed.

(** ** Column by column

    The row-wise pipeline of the code against the index-wise wording. *)













(** ** The claims on the loss *)











(** C9: flipping the sign of any entries of the three batches leaves the
    loss unchanged; in particular the loss of the entrywise absolute values
    is the loss of the batches themselves. *)
Theorem flops_sign_invariant
    (a p n a' p' n' : Tensor) (threshold max_loss : Qc) :
  sign_flipped a a' -> sign_flipped p p' -> sign_flipped n n' ->
  Flops.__call__ a' p' n' threshold max_loss
  = Flops.__call__ a p n threshold max_loss
  /\ Flops.__call__ (torch_abs a) (torch_abs p) (torch_abs n)
                    threshold max_loss
     = Flops.__call__ a p n threshold max_loss.
Proof.
  intros Ha Hp Hn. split.
  - apply call_same_abs;
      solve [ now apply sign_flipped_abs | apply Ha | apply Hp | apply Hn ].
  - apply call_same_abs; try reflexivity;
      apply sign_flipped_abs, sign_flipped_torch_abs.
Qed.

Lemma flops_sign_invariant_witness :
  Flops.__call__ sample_anchor_flipped sample_positive sample_negative
                 (Z2Qc 3) (Z2Qc 1)
  = Flops.__call__ sample_anchor sample_positive sample_negative
                   (Z2Qc 3) (Z2Qc 1).
Proof.
  apply (flops_sign_invariant
           sample_anchor sample_positive sample_negative
           sample_anchor_flipped sample_positive sample_negative).
  - split; [reflexivity|].
    repeat first [ apply Forall2_nil | apply Forall2_cons ];
      first [ now left | now right ].
  - split; [reflexivity|].
    repeat first [ apply Forall2_nil | apply Forall2_cons ]; now left.
  - split; [reflexivity|].
    repeat first [ apply Forall2_nil | apply Forall2_cons ]; now left.
Defined.

End Loss.


(** * Further properties of the scheduler *)

Section SchedulerRuns.

Import FlopsScheduler.

Lemma Z2Qc_lt (a b : Z) : a < b -> (Z2Qc a < Z2Qc b)%Qc.
Proof.
  intros H. unfold Qclt, Z2Qc. cbn [this Q2Qc]. rewrite !Qred_correct.
  now rewrite <- Zlt_Qlt.
Qed.


Lemma Qcdiv_self (s : Z) : s <> 0 -> (Z2Qc s / Z2Qc s = 1)%Qc.
Proof.
  intros H. apply Qcmult_inv_r. now apply Z2Qc_nonzero.
Qed.



Lemma ramp_fraction_le_1 (s : Z) (k : nat) :
  Z.of_nat k <= s -> 0 < s ->
  (0 <= (Z2Qc (Z.of_nat k) / Z2Qc s) ^ 2 <= 1)%Qc.
Proof.
  intros Hk Hs. split.
  - apply Qcpower_pos, Qcdiv_nonneg; lia.
  - rewrite <- (Qcpower_1 2), <- (Qcdiv_self s) by lia.
    apply Qcsquare_le; [apply Qcdiv_nonneg | apply Qcdiv_le]; lia.
Qed.

Lemma step_n_closed_form (w : Qc) (s : Z) (k : nat) :
  step_n k (__init__ w s)
  = Ok (mk w (ramp w s (Nat.min k (Z.to_nat s))) s
           (Z.of_nat (Nat.min k (Z.to_nat s)))).
Proof.
  destruct (Z_le_gt_dec (Z.of_nat k) s) as [Hle | Hgt].
  - rewrite Nat.min_l by lia. now apply step_n_ramp.
  - rewrite Nat.min_r by lia.
    destruct (Z_le_gt_dec 0 s) as [H0 | H0].
    + rewrite Z2Nat.id by lia. apply step_n_past. lia.
    + replace (Z.to_nat s) with 0%nat by lia.
      apply (step_n_frozen k (__init__ w s)). simpl. lia.
Qed.

Lemma step_n_frame (k : nat) (self self' : t) :
  step_n k self = Ok self' ->
  _weight self' = _weight self /\
  steps self' = steps self /\
  _step self <= _step self' <= _step self + Z.of_nat k /\
  _step self' <= Z.max (_step self) (steps self).
Proof.
  revert self'. induction k as [|k IH]; intros self' H.
  - injection H as <-. repeat split; lia.
  - simpl in H. destruct (step_n k self) as [mid|e]; [|discriminate].
    destruct (IH mid eq_refl) as (Hw & Hs & Hc & Hm).
    simpl in H. unfold step in H.
    destruct (Z.geb_spec (_step mid) (steps mid)).
    + injection H as <-. repeat split; try assumption; lia.
    + unfold true_div in H. destruct (steps mid =? 0); [discriminate|].
      simpl in H. injection H as <-. simpl.
      repeat split; try assumption; lia.
Qed.



Lemma ramp_bounds (w : Qc) (s : Z) (j : nat) :
  j = 0%nat \/ Z.of_nat j <= s ->
  (Qcabs (ramp w s j) <= Qcabs w)%Qc /\
  ((0 <= w)%Qc -> (0 <= ramp w s j)%Qc /\ (ramp w s j <= w)%Qc).
Proof.
  intros Hj. destruct j as [|j].
  - cbv [ramp]. rewrite (Qcabs_pos 0) by apply Qcle_refl.
    split; [apply Qcabs_nonneg|]. intros Hw. split; [apply Qcle_refl|exact Hw].
  - destruct Hj as [Hj | Hj]; [discriminate|].
    destruct (ramp_fraction_le_1 s (S j)) as [F0 F1]; [lia | lia |].
    cbv [ramp]. set (f := ((Z2Qc (Z.of_nat (S j)) / Z2Qc s) ^ 2)%Qc) in *.
    split.
    + rewrite Qcabs_Qcmult, (Qcabs_pos f) by assumption.
      rewrite <- (Qcmult_1_r (Qcabs w)) at 2.
      apply Qcmult_le_compat_l; [assumption | apply Qcabs_nonneg].
    + intros Hw. split; [now apply Qcmult_nonneg|].
      rewrite <- (Qcmult_1_r w) at 2.
      now apply Qcmult_le_compat_l.
Qed.



(** X2: from any state, a run of [step] that returns leaves the target
    weight and the total untouched; the counter never goes back, grows by
    at most the number of calls, and never passes the larger of its first
    value and the total. *)
Theorem scheduler_run_frame (k : nat) (self self' : t) :
  step_n k self = Ok self' ->
  _weight self' = _weight self /\
  steps self' = steps self /\
  _step self <= _step self' <= _step self + Z.of_nat k /\
  _step self' <= Z.max (_step self) (steps self).
Proof.
  apply step_n_frame.
Qed.

Lemma scheduler_run_frame_witness :
  step_n 3 (mk (Z2Qc 5) (Z2Qc 0) 2 0) = Ok (mk (Z2Qc 5) (Z2Qc 5) 2 2) /\
  _weight (mk (Z2Qc 5) (Z2Qc 5) 2 2) = Z2Qc 5 /\
  steps (mk (Z2Qc 5) (Z2Qc 5) 2 2) = 2 /\
  0 <= _step (mk (Z2Qc 5) (Z2Qc 5) 2 2) <= 0 + Z.of_nat 3 /\
  _step (mk (Z2Qc 5) (Z2Qc 5) 2 2) <= Z.max 0 2.
Proof.
  assert (E : step_n 3 (mk (Z2Qc 5) (Z2Qc 0) 2 0)
              = Ok (mk (Z2Qc 5) (Z2Qc 5) 2 2)).
  { cbn. now f_equal. }
  split; [exact E|].
  exact (scheduler_run_frame 3 (mk (Z2Qc 5) (Z2Qc 0) 2 0)
           (mk (Z2Qc 5) (Z2Qc 5) 2 2) E).
Defined.


(** X4: the weight read through [get] never exceeds the target in
    magnitude, after any number of calls and for any total; for a target
    weight that is not negative it stays between 0 and the target. *)
Theorem scheduler_weight_bounded (w : Qc) (s : Z) (k : nat) :
  exists self,
    step_n k (__init__ w s) = Ok self /\
    (Qcabs (get self) <= Qcabs w)%Qc /\
    ((0 <= w)%Qc -> (0 <= get self)%Qc /\ (get self <= w)%Qc).
Proof.
  eexists. split; [apply step_n_closed_form|].
  apply ramp_bounds.
  destruct (Z_le_gt_dec 0 s); [right | left]; lia.
Qed.



Lemma ramp_full (w : Qc) (s : Z) : 1 <= s -> ramp w s (Z.to_nat s) = w.
Proof.
  intros Hs. unfold ramp.
  destruct (Z.to_nat s) as [|j] eqn:E; [lia|].
  rewrite <- E, Z2Nat.id, Qcdiv_self, Qcpower_1 by lia.
  apply Qcmult_1_r.
Qed.

(** X11: once [steps] calls or more have been made, [steps >= 1], the
    weight read through [get] is the target weight and the counter is
    [steps], however many calls follow. *)
Theorem scheduler_stays_at_target (w : Qc) (s : Z) (k : nat) :
  1 <= s <= Z.of_nat k ->
  exists self,
    step_n k (__init__ w s) = Ok self /\
    _step self = s /\
    get self = w.
Proof.
  intros Hk. eexists. split; [apply step_n_past; lia|].
  split; [reflexivity|]. apply ramp_full. lia.
Qed.

Lemma scheduler_stays_at_target_witness :
  exists self,
    step_n 5 (__init__ (Z2Qc 7) 3) = Ok self /\
    _step self = 3 /\
    get self = Z2Qc 7.
Proof.
  apply (scheduler_stays_at_target (Z2Qc 7) 3 5). simpl. lia.
Defined.

End SchedulerRuns.


(** * Further properties of the loss *)

Section LossOutcomes.

Lemma call_matching (a p n : Tensor) (threshold max_loss : Qc) :
  ncols p = ncols a -> ncols n = ncols a ->
  Flops.__call__ a p n threshold max_loss
  = Ok (torch_clip
          (torch_abs0
             (vmap2 Qcminus (Num threshold)
                (torch_sum
                   (pow2 (torch_mean_dim0
                            (torch_abs
                               (mkTensor (ncols a) (spec_batch a p n))))))))
          0%Qc max_loss).
Proof.
  intros Hp Hn. unfold Flops.__call__, torch_cat, spec_batch.
  cbn [forallb]. rewrite Hp, Hn, !Nat.eqb_refl.
  cbn [andb bind map concat]. now rewrite app_nil_r.
Qed.




Lemma spec_batch_length (a p n : Tensor) :
  length (spec_batch a p n) = (nrows a + nrows p + nrows n)%nat.
Proof.
  unfold spec_batch, nrows. rewrite !length_app. lia.
Qed.

Lemma clip_negative_max (x max_loss : Qc) :
  (max_loss <= 0)%Qc -> Qcmin (Qcmax x 0) max_loss = max_loss.
Proof.
  intros Hm. unfold Qcmin.
  destruct (Qle_bool (Qcmax x 0) max_loss) eqn:E; [|reflexivity].
  apply Qle_bool_iff in E. apply Qcle_antisym; [exact E|].
  apply Qcle_trans with 0%Qc; [exact Hm | apply Qcmax_ub_r].
Qed.



(** X8: a number returned by the call never exceeds [max_loss], whatever
    its sign; when [max_loss] is not positive the number is [max_loss]
    itself. *)
Theorem flops_at_most_max_loss
    (a p n : Tensor) (threshold max_loss q : Qc) :
  Flops.__call__ a p n threshold max_loss = Ok (Num q) ->
  (q <= max_loss)%Qc /\ ((max_loss <= 0)%Qc -> q = max_loss).
Proof.
  unfold Flops.__call__. destruct (torch_cat [a; p; n]) as [x|e];
    [|discriminate].
  cbn [bind]. unfold torch_clip, torch_abs0.
  destruct (vmap2 Qcminus (Num threshold) _) as [d|]; [|discriminate].
  cbn [vmap]. intros H. injection H as <-. split.
  - apply Qcmin_lb_r.
  - apply clip_negative_max.
Qed.

Lemma flops_at_most_max_loss_witness :
  (Z2Qc (-1) <= Z2Qc (-1))%Qc /\
  ((Z2Qc (-1) <= 0)%Qc -> Z2Qc (-1) = Z2Qc (-1)).
Proof.
  apply (flops_at_most_max_loss sample_anchor sample_positive sample_negative
           (Z2Qc 30) (Z2Qc (-1)) (Z2Qc (-1))).
  vm_compute. reflexivity.
Defined.

(** X9: the three batches are one pool: two calls whose batches share the
    vocabulary dimension and hold the same rows overall, however the rows
    are split among anchor, positive and negative and in whatever order,
    return the same result. *)
Theorem flops_pooled_rows (a p n x y z : Tensor) (threshold max_loss : Qc) :
  ncols p = ncols a -> ncols n = ncols a ->
  ncols x = ncols a -> ncols y = ncols a -> ncols z = ncols a ->
  Permutation (spec_batch a p n) (spec_batch x y z) ->
  Flops.__call__ x y z threshold max_loss
  = Flops.__call__ a p n threshold max_loss.
Proof.
  intros Hp Hn Hx Hy Hz Hperm.
  rewrite (call_matching a p n) by assumption.
  rewrite (call_matching x y z) by congruence.
  rewrite (mean_abs_perm (mkTensor (ncols x) (spec_batch x y z))
                         (mkTensor (ncols a) (spec_batch a p n)));
    [reflexivity | exact Hx | now apply Permutation_sym].
Qed.

Lemma flops_pooled_rows_witness :
  Flops.__call__
    (mkTensor 2 (rows sample_anchor ++ rows sample_positive))
    sample_empty sample_negative (Z2Qc 3) (Z2Qc 1)
  = Flops.__call__ sample_anchor sample_positive sample_negative
                   (Z2Qc 3) (Z2Qc 1).
Proof.
  apply (flops_pooled_rows sample_anchor sample_positive sample_negative
           (mkTensor 2 (rows sample_anchor ++ rows sample_positive))
           sample_empty sample_negative);
    reflexivity.
Defined.

(** ** Bounded activations *)

Ltac qc_lra :=
  unfold Qcle, Qclt, Qcminus, Qcplus, Qcopp in *;
  cbn [this Q2Qc] in *; rewrite ?Qred_correct in *; lra.

Lemma Z2Qc_succ (b : nat) :
  Z2Qc (Z.of_nat (S b)) = (Z2Qc (Z.of_nat b) + 1)%Qc.
Proof.
  apply Qc_is_canon. unfold Z2Qc, Qcplus. cbn [this Q2Qc].
  rewrite !Qred_correct, Nat2Z.inj_succ, <- Z.add_1_r, inject_Z_plus.
  reflexivity.
Qed.

Lemma Qcsquare_nonneg (c : Qc) : (0 <= c ^ 2)%Qc.
Proof.
  replace (c ^ 2)%Qc with (Qcabs c ^ 2)%Qc.
  - apply Qcpower_pos, Qcabs_nonneg.
  - simpl. apply (Qcabs_case c (fun a => a * (a * 1) = c * (c * 1))%Qc);
      intros _; ring.
Qed.

Lemma Forall_row_add (P Q T : Qc -> Prop) (u v : list Qc) :
  (forall x y, P x -> Q y -> T (x + y)%Qc) ->
  Forall P u -> Forall Q v -> Forall T (row_add u v).
Proof.
  intros HT Hu. revert v. induction Hu as [|x u Hx _ IH]; intros v Hv.
  - constructor.
  - destruct Hv as [|y v Hy Hv]; [constructor|].
    unfold row_add in *. cbn [combine map fst snd].
    constructor; [now apply HT | now apply IH].
Qed.

Lemma row_add_length (u v : list Qc) :
  (length (row_add u v) <= length v)%nat.
Proof.
  unfold row_add. rewrite length_map, length_combine. lia.
Qed.

Lemma sum_rows_length (V : nat) (R : list (list Qc)) :
  (length (fold_right row_add (repeat 0%Qc V) R) <= V)%nat.
Proof.
  induction R as [|r R IH]; cbn [fold_right].
  - now rewrite repeat_length.
  - eapply Nat.le_trans; [apply row_add_length | exact IH].
Qed.

Lemma sum_rows_bounds (c : Qc) (V : nat) (R : list (list Qc)) :
  Forall (Forall (fun q => 0 <= q /\ q <= c)%Qc) R ->
  Forall (fun s => 0 <= s /\ s <= Z2Qc (Z.of_nat (length R)) * c)%Qc
         (fold_right row_add (repeat 0%Qc V) R).
Proof.
  induction 1 as [|r R Hr _ IH]; cbn [fold_right length].
  - apply Forall_forall. intros s Hs. apply repeat_spec in Hs. subst s.
    change (Z2Qc (Z.of_nat 0)) with 0%Qc. rewrite Qcmult_0_l.
    split; apply Qcle_refl.
  - eapply Forall_row_add; [|exact Hr|exact IH].
    intros x y [Hx0 Hxc] [Hy0 Hyc]. rewrite Z2Qc_succ.
    rewrite Qcmult_plus_distr_l, Qcmult_1_l.
    set (bc := (Z2Qc (Z.of_nat (length R)) * c)%Qc) in *.
    split; qc_lra.
Qed.

Lemma mean_bounds (c s : Qc) (b : nat) :
  (0 <= s)%Qc -> (s <= Z2Qc (Z.of_nat (S b)) * c)%Qc ->
  exists q, div_count s (S b) = Num q /\ (0 <= q)%Qc /\ (q <= c)%Qc.
Proof.
  intros H0 Hc. eexists. split; [reflexivity|].
  assert (Hpos : (0 < Z2Qc (Z.of_nat (S b)))%Qc) by (apply (Z2Qc_lt 0); lia).
  assert (Hinv : (0 <= / Z2Qc (Z.of_nat (S b)))%Qc)
    by now apply Qcinv_nonneg, Qclt_le_weak.
  split; [now apply Qcmult_nonneg|].
  replace c with (Z2Qc (Z.of_nat (S b)) * c / Z2Qc (Z.of_nat (S b)))%Qc.
  - now apply Qcmult_le_compat_r.
  - field. now apply Qclt_not_eq in Hpos; auto.
Qed.

Lemma torch_sum_bounds (u : Qc) (v : list value) :
  Forall (fun e => exists q, e = Num q /\ 0 <= q /\ q <= u)%Qc v ->
  exists S, torch_sum v = Num S /\
            (0 <= S)%Qc /\ (S <= Z2Qc (Z.of_nat (length v)) * u)%Qc.
Proof.
  induction 1 as [|e v (q & -> & Hq0 & Hqu) _ (S & HS & HS0 & HSu)].
  - exists 0%Qc. split; [reflexivity|].
    change (Z2Qc (Z.of_nat (length (@nil value)))) with 0%Qc.
    rewrite Qcmult_0_l. split; apply Qcle_refl.
  - exists (q + S)%Qc.
    change (torch_sum (Num q :: v)) with (vmap2 Qcplus (Num q) (torch_sum v)).
    rewrite HS. split; [reflexivity|].
    cbn [length]. rewrite Z2Qc_succ, Qcmult_plus_distr_l, Qcmult_1_l.
    set (lu := (Z2Qc (Z.of_nat (length v)) * u)%Qc) in *.
    split; qc_lra.
Qed.

Lemma Qcmax_ub_l (x y : Qc) : (x <= Qcmax x y)%Qc.
Proof.
  unfold Qcmax. destruct (Qle_bool x y) eqn:E.
  - now apply Qle_bool_iff.
  - apply Qcle_refl.
Qed.

Lemma clip_saturated (x max_loss : Qc) :
  (max_loss <= x)%Qc -> Qcmin (Qcmax x 0) max_loss = max_loss.
Proof.
  intros Hx. unfold Qcmin.
  destruct (Qle_bool (Qcmax x 0) max_loss) eqn:E; [|reflexivity].
  apply Qle_bool_iff in E. apply Qcle_antisym; [exact E|].
  apply Qcle_trans with x; [exact Hx | apply Qcmax_ub_l].
Qed.

Lemma pooled_sum_bounds (c : Qc) (x : Tensor) :
  (0 < nrows x)%nat ->
  Forall (Forall (fun q => Qcabs q <= c)%Qc) (rows x) ->
  exists S,
    torch_sum (pow2 (torch_mean_dim0 (torch_abs x))) = Num S /\
    (0 <= S)%Qc /\ (S <= Z2Qc (Z.of_nat (ncols x)) * c ^ 2)%Qc.
Proof.
  intros HB Hc.
  destruct (torch_sum_bounds (c ^ 2)%Qc
              (pow2 (torch_mean_dim0 (torch_abs x))))
    as (S & HS & HS0 & HSu).
  - unfold pow2, torch_mean_dim0, sum_dim0, nrows, torch_abs in *.
    cbn [rows ncols]. rewrite length_map.
    destruct (length (rows x)) as [|b] eqn:EB; [lia|].
    rewrite !Forall_map.
    eapply Forall_impl;
      [|apply (sum_rows_bounds c (ncols x) (map (map Qcabs) (rows x)))].
    + intros s [Hs0 Hsc]. rewrite length_map, EB in Hsc.
      destruct (mean_bounds c s b Hs0 Hsc) as (q & -> & Hq0 & Hqc).
      cbn [vmap]. eexists. split; [reflexivity|]. split.
      * now apply Qcpower_pos.
      * now apply Qcsquare_le.
    + rewrite Forall_map. eapply Forall_impl; [|exact Hc].
      intros r Hr. rewrite Forall_map. eapply Forall_impl; [|exact Hr].
      intros q Hq. split; [apply Qcabs_nonneg | exact Hq].
  - exists S. split; [exact HS|]. split; [exact HS0|].
    eapply Qcle_trans; [exact HSu|].
    apply Qcmult_le_compat_r; [|apply Qcsquare_nonneg].
    apply Z2Qc_le, inj_le.
    unfold pow2, torch_mean_dim0, sum_dim0. rewrite !length_map.
    apply sum_rows_length.
Qed.

(** X10: the loss saturates.  When the batches share the vocabulary
    dimension [V] and hold at least one row, every activation is at most
    [c] in absolute value and [V * c^2 + max_loss <= threshold], the call
    returns [max_loss] itself, whatever the activations are. *)
Theorem flops_saturates (a p n : Tensor) (threshold max_loss c : Qc) :
  ncols p = ncols a -> ncols n = ncols a ->
  (0 < nrows a + nrows p + nrows n)%nat ->
  Forall (Forall (fun q => Qcabs q <= c)%Qc) (spec_batch a p n) ->
  (Z2Qc (Z.of_nat (ncols a)) * c ^ 2 + max_loss <= threshold)%Qc ->
  Flops.__call__ a p n threshold max_loss = Ok (Num max_loss).
Proof.
  intros Hp Hn HB Hc Ht. rewrite call_matching by assumption.
  destruct (pooled_sum_bounds c (mkTensor (ncols a) (spec_batch a p n)))
    as (S & -> & HS0 & HSu).
  - unfold nrows. cbn [rows]. now rewrite spec_batch_length.
  - exact Hc.
  - cbn [ncols] in HSu. cbn [vmap2 torch_abs0 torch_clip vmap].
    do 2 f_equal. apply clip_saturated.
    apply Qcle_trans with (threshold - S)%Qc; [|apply Qcle_Qcabs].
    set (vc := (Z2Qc (Z.of_nat (ncols a)) * c ^ 2)%Qc) in *.
    qc_lra.
Qed.

Lemma flops_saturates_witness :
  Flops.__call__ sample_anchor sample_positive sample_negative
                 (Z2Qc 33) (Z2Qc 1)
  = Ok (Num (Z2Qc 1)).
Proof.
  apply (flops_saturates sample_anchor sample_positive sample_negative
           (Z2Qc 33) (Z2Qc 1) (Z2Qc 4)).
  - reflexivity.
  - reflexivity.
  - simpl. lia.
  - repeat constructor; now vm_compute.
  - now vm_compute.
Defined.

End LossOutcomes.
